(** * A shallow embedding of CRYPTOCURRENCY-PORTFOLIO-TRACKER/main.go

    The numeric values of the Go program are [float64]; they are modelled by
    the kernel's primitive binary64 floats ([PrimFloat.float]), so that
    rounding is the one the program performs.  The HTTP fetch of the CoinCap
    catalog is modelled as an oracle [nat -> fetch_result]: the [n]-th call to
    [http.Get]+[Decode] of one run returns [fetch n].  [strconv.ParseFloat]
    is a parameter [ParseFloat] of the development. *)

Set Warnings "-inexact-float".
From Stdlib Require Import String Ascii List ZArith Bool Permutation Floats Uint63 Lia.
Import ListNotations.
Open Scope string_scope.

(** ** Data model *)

(** One element of [coinCapAsset.Data]. *)
Record coinCapRecord := {
  ID : string;
  Symbol : string;
  PriceUsd : string
}.

(** The outcome of [http.Get(coincapCryptoAPI)] followed by
    [json.NewDecoder(resp.Body).Decode(&assetData)]. *)
Inductive fetch_result :=
| FetchError                          (* http.Get returned an error *)
| DecodeError                         (* Decode returned an error *)
| Body (Data : list coinCapRecord).   (* the decoded [assetData.Data] *)

(** The errors [getCoinCapPrice] can return. *)
Inductive price_error :=
| ErrFetch
| ErrDecode
| ErrParse (s : string)               (* strconv.ParseFloat failed on [s] *)
| ErrNotFound (symbol : string).      (* "price data not found for symbol %s" *)

(** Go's [(float64, error)] result pair: [inr err] stands for a non-nil
    error (the float returned alongside it is always [0] and never read). *)
Definition go_result (A : Type) := (A + price_error)%type.

(** [tokenConfig] *)
Record tokenConfig := {
  Name : string;
  TSymbol : string;
  Threshold : float
}.

(** A row of [SELECT symbol, amount FROM portfolio]. *)
Record holding_row := {
  HSymbol : string;
  Amount : float
}.

(** [retryDelay = 30] *)
Definition retryDelay : Z := 30.

Section Program.

(** [strconv.ParseFloat(s, 64)]: [None] when it returns an error. *)
Variable ParseFloat : string -> option float.

(** ** getCoinCapPrice *)

(** The [for _, asset := range assetData.Data] loop of [getCoinCapPrice]. *)
Fixpoint lookup_loop (data : list coinCapRecord) (symbol : string)
  : go_result float :=
  match data with
  | [] => inr (ErrNotFound symbol)
  | asset :: rest =>
      if String.eqb (Symbol asset) symbol then
        match ParseFloat (PriceUsd asset) with
        | Some priceUsd => inl priceUsd
        | None => inr (ErrParse (PriceUsd asset))
        end
      else lookup_loop rest symbol
  end.

(** [getCoinCapPrice(symbol)], given what the fetch of this call returned. *)
Definition getCoinCapPrice (resp : fetch_result) (symbol : string)
  : go_result float :=
  match resp with
  | FetchError => inr ErrFetch
  | DecodeError => inr ErrDecode
  | Body data => lookup_loop data symbol
  end.

(** ** monitorToken *)

(** What one pass of the [for] loop of [monitorToken] does, as observable
    events. *)
Inductive event :=
| EvFetch                                        (* getCoinCapPrice is called *)
| EvLogError (name : string) (err : price_error) (* log.Printf of the error *)
| EvAlert (name : string) (price threshold : float) (* the above-threshold message *)
| EvSleep (seconds : Z).                         (* time.Sleep(retryDelay * time.Second) *)

(** One iteration of the loop body, given the fetch of this iteration.  On an
    error the body executes [continue], which jumps back to the loop head and
    so skips the [time.Sleep] at the end of the body. *)
Definition monitor_iteration (token : tokenConfig) (resp : fetch_result)
  : list event :=
  EvFetch ::
  match getCoinCapPrice resp (TSymbol token) with
  | inr err => [EvLogError (Name token) err]
  | inl price =>
      (if PrimFloat.ltb (Threshold token) price   (* price > token.Threshold *)
       then [EvAlert (Name token) price (Threshold token)]
       else [])
      ++ [EvSleep retryDelay]
  end.

(** The first [n] iterations of [monitorToken(token)], the [k]-th fetch of the
    run answering [fetch k]. *)
Fixpoint monitorToken (token : tokenConfig) (fetch : nat -> fetch_result)
  (k n : nat) : list event :=
  match n with
  | O => []
  | S n' => monitor_iteration token (fetch k) ++ monitorToken token fetch (S k) n'
  end.

(** ** handlePortfolioValue *)

(** [cryptoAmounts], a [map[string]float64]: an association list with one
    entry per key. *)
Definition amounts := list (string * float).

(** Reading [cryptoAmounts[symbol]]: Go's zero value [0] when absent. *)
Fixpoint map_get (m : amounts) (symbol : string) : float :=
  match m with
  | [] => 0%float
  | (s, a) :: rest => if String.eqb s symbol then a else map_get rest symbol
  end.

(** [cryptoAmounts[symbol] += amount]. *)
Fixpoint add_amount (m : amounts) (symbol : string) (amount : float) : amounts :=
  match m with
  | [] => [(symbol, (0 + amount)%float)]
  | (s, a) :: rest =>
      if String.eqb s symbol then (s, (a + amount)%float) :: rest
      else (s, a) :: add_amount rest symbol amount
  end.

(** The [for rows.Next()] loop that fills [cryptoAmounts]. *)
Definition group_rows (rows : list holding_row) : amounts :=
  fold_left (fun m r => add_amount m (HSymbol r) (Amount r)) rows [].

(** The keys of [cryptoAmounts]. *)
Definition keys (m : amounts) : list string := map fst m.

(** What the handler writes back. *)
Inductive response :=
| RespOK (total_value : float)          (* {"total_value": ...} *)
| RespError (status : Z) (msg : string). (* http.Error(w, msg, status) *)

Definition price_error_msg : string := "Error fetching cryptocurrency price".

Definition encode_failed_msg : string := "Error encoding response data".

(** [json.NewEncoder(w).Encode(response)] and its error branch: encoding/json
    refuses a float64 that is NaN or infinite ([UnsupportedValueError]), and
    the handler then answers [http.Error] with status 500. *)
Definition encode_response (r : response) : response :=
  match r with
  | RespOK v => if PrimFloat.is_finite v then RespOK v else RespError 500 encode_failed_msg
  | RespError _ _ => r
  end.

(** The [for symbol, amount := range cryptoAmounts] loop.  [order] is the
    iteration order the Go runtime picks for the map; [k] counts the fetches
    issued so far, and the result returns it with the response.  The update
    [totalValue += price * amount] is a multiplication rounded to binary64
    followed by an addition rounded to binary64 (no fused multiply-add, as on
    amd64). *)
Fixpoint value_loop (fetch : nat -> fetch_result) (m : amounts)
  (order : list string) (k : nat) (totalValue : float) : response * nat :=
  match order with
  | [] => (RespOK totalValue, k)
  | symbol :: rest =>
      match getCoinCapPrice (fetch k) symbol with
      | inr _ => (RespError 500 price_error_msg, S k)
      | inl price =>
          value_loop fetch m rest (S k)
            (totalValue + price * map_get m symbol)%float
      end
  end.

(** [handlePortfolioValue] after the database query succeeded with [rows]:
    the valuation loop, then the encoding of [{"total_value": totalValue}];
    the response and the number of catalog fetches it issued. *)
Definition handlePortfolioValue (fetch : nat -> fetch_result)
  (order : list string) (rows : list holding_row) : response * nat :=
  let r := value_loop fetch (group_rows rows) order 0 0%float in
  (encode_response (fst r), snd r).

(** A legal iteration order of the Go map [m]: each key once. *)
Definition iteration_order (m : amounts) (order : list string) : Prop :=
  Permutation order (keys m).

(** ** The fetch-once valuation of the design notes *)

(** Modelled from the spec: [fetchPrices] of section 4.1, which converts every
    price string of the catalog and aborts on the first one that does not
    parse. *)
Fixpoint parse_all (data : list coinCapRecord)
  : go_result (list (string * float)) :=
  match data with
  | [] => inl []
  | r :: rest =>
      match ParseFloat (PriceUsd r) with
      | None => inr (ErrParse (PriceUsd r))
      | Some p =>
          match parse_all rest with
          | inl snap => inl ((Symbol r, p) :: snap)
          | inr e => inr e
          end
      end
  end.

Definition fetchPrices (resp : fetch_result)
  : go_result (list (string * float)) :=
  match resp with
  | FetchError => inr ErrFetch
  | DecodeError => inr ErrDecode
  | Body data => parse_all data
  end.

(** Modelled from the spec: [lookupPrice(snapshot, symbol)]. *)
Fixpoint lookupPrice (snap : list (string * float)) (symbol : string)
  : go_result float :=
  match snap with
  | [] => inr (ErrNotFound symbol)
  | (s, p) :: rest => if String.eqb s symbol then inl p else lookupPrice rest symbol
  end.

Fixpoint value_loop_snapshot (snap : list (string * float)) (m : amounts)
  (order : list string) (totalValue : float) : response :=
  match order with
  | [] => RespOK totalValue
  | symbol :: rest =>
      match lookupPrice snap symbol with
      | inr _ => RespError 500 price_error_msg
      | inl price =>
          value_loop_snapshot snap m rest (totalValue + price * map_get m symbol)%float
      end
  end.

(** Modelled from the spec: a valuation that fetches the catalog once per call
    and reuses that snapshot for every distinct symbol. *)
Definition valuate_fetch_once (fetch : nat -> fetch_result)
  (order : list string) (rows : list holding_row) : response :=
  match fetchPrices (fetch 0) with
  | inr _ => RespError 500 price_error_msg
  | inl snap => value_loop_snapshot snap (group_rows rows) order 0%float
  end.

End Program.

(** ** A decimal parser used to run the model on concrete catalogs

    A stand-in for [strconv.ParseFloat] on literals [digits] or
    [digits.digits]: the integer [n] formed by all digits divided by [10^k]
    ([k] the number of fraction digits), both converted exactly and the
    quotient rounded once. *)
Definition digit_value (c : ascii) : option Z :=
  let n := (Z.of_nat (nat_of_ascii c) - 48)%Z in
  if (0 <=? n)%Z && (n <=? 9)%Z then Some n else None.

Fixpoint parse_digits (s : string) (acc : Z) (k : Z) (seen_dot : bool)
  : option (Z * Z) :=
  match s with
  | EmptyString => Some (acc, k)
  | String c rest =>
      if Ascii.eqb c "." then
        if seen_dot then None else parse_digits rest acc k true
      else
        match digit_value c with
        | Some d => parse_digits rest (acc * 10 + d)%Z (if seen_dot then k + 1 else k)%Z seen_dot
        | None => None
        end
  end.

Definition float_of_Z (z : Z) : float := PrimFloat.of_uint63 (Uint63.of_Z z).

Definition parse_decimal (s : string) : option float :=
  match s with
  | EmptyString => None
  | _ =>
      match parse_digits s 0%Z 0%Z false with
      | Some (n, k) => Some (float_of_Z n / float_of_Z (10 ^ k)%Z)%float
      | None => None
      end
  end.

(** Event classifiers used to read traces. *)
Definition is_sleep (e : event) : bool :=
  match e with EvSleep _ => true | _ => false end.

Definition is_fetch (e : event) : bool :=
  match e with EvFetch => true | _ => false end.

Definition is_alert (e : event) : bool :=
  match e with EvAlert _ _ _ => true | _ => false end.

Definition is_error {A : Type} (r : go_result A) : bool :=
  match r with inr _ => true | inl _ => false end.

(** ** The database-facing handlers *)

(** A row of the [portfolio] table as [handlePortfolio] scans it into the
    [Portfolio] struct.  Timestamps are seconds; [UpdatedAt] is the
    [sql.NullTime] column ([None] for SQL NULL).  The struct's [ID] field is
    named [PID] here, [Symbol] [PSymbol] and [Amount] [PAmount], to keep them
    apart from the projections of the other records. *)
Record Portfolio := {
  PID : Z;
  UserID : Z;
  PSymbol : string;
  PAmount : float;
  CreatedAt : Z;
  UpdatedAt : option Z
}.

(** The outcome of [db.Query]: an error, or the cursor's rows, each the outcome
    of [rows.Scan] on it ([None]: Scan returned an error), followed by whether
    the cursor stopped on an error ([rows.Err()] non-nil); [rows.Next()]
    returns [false] in both cases, and neither handler calls [rows.Err()]. *)
Inductive query_result (A : Type) :=
| QueryError
| QueryRows (scans : list (option A)) (iter_err : bool).
Arguments QueryError {A}.
Arguments QueryRows {A} scans iter_err.

Definition query_failed_msg : string := "Error fetching portfolio data".
Definition scan_failed_msg : string := "Error scanning portfolio data".

Section Handlers.

Variable ParseFloat : string -> option float.

(** The [for rows.Next()] loop of [handlePortfolioValue]: scan a row, return
    on a Scan error, otherwise [cryptoAmounts[symbol] += amount]. *)
Fixpoint scan_amounts (scans : list (option holding_row)) (m : amounts)
  : option amounts :=
  match scans with
  | [] => Some m
  | None :: _ => None
  | Some r :: rest => scan_amounts rest (add_amount m (HSymbol r) (Amount r))
  end.

(** [handlePortfolioValue] from the query on: [order] is the iteration order
    of the map the scan loop builds. *)
Definition handlePortfolioValue_http (q : query_result holding_row)
  (fetch : nat -> fetch_result) (order : list string) : response * nat :=
  match q with
  | QueryError => (RespError 500 query_failed_msg, 0)
  | QueryRows scans _ =>
      match scan_amounts scans [] with
      | None => (RespError 500 scan_failed_msg, 0)
      | Some cryptoAmounts =>
          let r := value_loop ParseFloat fetch cryptoAmounts order 0 0%float in
          (encode_response (fst r), snd r)
      end
  end.

End Handlers.

(** A Go slice: [None] is the nil slice, [Some l] a non-nil one. *)
Definition go_append {A : Type} (s : option (list A)) (x : A) : option (list A) :=
  Some (match s with None => [x] | Some l => (l ++ [x])%list end).

(** The [for rows.Next()] loop of [handlePortfolio], starting from
    [var portfolio []Portfolio] (nil); [None] when a Scan fails. *)
Fixpoint scan_portfolio (scans : list (option Portfolio)) (acc : option (list Portfolio))
  : option (option (list Portfolio)) :=
  match scans with
  | [] => Some acc
  | None :: _ => None
  | Some p :: rest => scan_portfolio rest (go_append acc p)
  end.

(** What [handlePortfolio] answers: an [http.Error], or the slice it hands to
    the JSON encoder. *)
Inductive list_response :=
| ListError (status : Z) (msg : string)
| ListOK (portfolio : option (list Portfolio)).

Definition handlePortfolio (q : query_result Portfolio) : list_response :=
  match q with
  | QueryError => ListError 500 query_failed_msg
  | QueryRows scans _ =>
      match scan_portfolio scans None with
      | None => ListError 500 scan_failed_msg
      | Some portfolio => ListOK portfolio
      end
  end.


(** The [portfolio] table with its AUTOINCREMENT counter.  Rows are kept in
    rowid order, which is insertion order since ids only grow, and the
    queries of the handlers read them in that order. *)
Record db_state := {
  table : list Portfolio;
  next_id : Z
}.

(** [INSERT INTO portfolio (user_id, symbol, amount) VALUES (?, ?, ?)] at time
    [now]: [id] from the counter, [created_at] by its DEFAULT
    CURRENT_TIMESTAMP, [updated_at] NULL. *)
Definition db_insert (db : db_state) (user_id : Z) (symbol : string) (amount : float)
  (now : Z) : db_state :=
  {| table := (table db ++
       [{| PID := next_id db; UserID := user_id; PSymbol := symbol; PAmount := amount;
           CreatedAt := now; UpdatedAt := None |}])%list;
     next_id := (next_id db + 1)%Z |}.


(** The rows of [SELECT symbol, amount FROM portfolio]. *)
Definition holding_rows (db : db_state) : list holding_row :=
  map (fun p => {| HSymbol := PSymbol p; Amount := PAmount p |}) (table db).

Definition select_symbol_amount (db : db_state) : query_result holding_row :=
  QueryRows (map Some (holding_rows db)) false.

Inductive add_response :=
| AddError (status : Z) (msg : string)
| AddCreated.                            (* w.WriteHeader(http.StatusCreated) *)

(** [handleAddToPortfolio]: [decoded] is what [Decode(&p)] produced ([None]:
    it returned an error), [exec_fails] whether [db.Exec] returned an error. *)
Definition handleAddToPortfolio (decoded : option Portfolio) (exec_fails : bool)
  (now : Z) (db : db_state) : add_response * db_state :=
  match decoded with
  | None => (AddError 400 "Error parsing request body", db)
  | Some p =>
      if exec_fails then (AddError 500 "Error adding cryptocurrency to portfolio", db)
      else (AddCreated, db_insert db (UserID p) (PSymbol p) (PAmount p) now)
  end.

(** ** Concrete catalogs and holdings *)

Definition rec_btc : coinCapRecord :=
  {| ID := "bitcoin"; Symbol := "BTC"; PriceUsd := "50000" |}.
Definition rec_eth : coinCapRecord :=
  {| ID := "ethereum"; Symbol := "ETH"; PriceUsd := "3000" |}.
Definition rec_btc_bad : coinCapRecord :=
  {| ID := "bitcoin"; Symbol := "BTC"; PriceUsd := "n/a" |}.
Definition rec_btc_one : coinCapRecord :=
  {| ID := "bitcoin"; Symbol := "BTC"; PriceUsd := "1" |}.

(** The catalog {BTC: 50000, ETH: 3000}. *)
Definition catalog_btc_eth : fetch_result := Body [rec_btc; rec_eth].

Definition snapshot_btc_eth : list (string * float) :=
  [("BTC", 50000%float); ("ETH", 3000%float)].

Definition bitcoin_watch : tokenConfig :=
  {| Name := "Bitcoin"; TSymbol := "BTC"; Threshold := 50000%float |}.

Definition row (s : string) (a : float) : holding_row := {| HSymbol := s; Amount := a |}.

(** Holdings {BTC: 0.5, ETH: 2}. *)
Definition holdings_half_btc_two_eth : list holding_row :=
  [row "BTC" 0.5; row "ETH" 2]%float.

(** [{BTC,1.0},{BTC,2.0},{ETH,5.0}] and [{BTC,3.0},{ETH,5.0}]. *)
Definition holdings_split : list holding_row :=
  [row "BTC" 1; row "BTC" 2; row "ETH" 5]%float.
Definition holdings_merged : list holding_row :=
  [row "BTC" 3; row "ETH" 5]%float.

(** Three BTC rows whose binary64 sum depends on their order. *)
Definition holdings_tenths : list holding_row :=
  [row "BTC" 0.1; row "BTC" 0.2; row "BTC" 0.3]%float.
Definition holdings_tenths_rev : list holding_row :=
  [row "BTC" 0.3; row "BTC" 0.2; row "BTC" 0.1]%float.

Definition price_btc_eth (s : string) : float :=
  if String.eqb s "BTC" then 50000%float else 3000%float.

(** A parser that also reads [NaN], as [strconv.ParseFloat] does. *)
Definition parse_with_nan (s : string) : option float :=
  if String.eqb s "NaN" then Some PrimFloat.nan else parse_decimal s.

Definition rec_btc_nan : coinCapRecord :=
  {| ID := "bitcoin"; Symbol := "BTC"; PriceUsd := "NaN" |}.

(** The iterations of a run [k .. k+n-1] whose fetch yields a price. *)
Definition successful_iterations (ParseFloat : string -> option float)
  (token : tokenConfig) (fetch : nat -> fetch_result) (k n : nat) : list nat :=
  filter (fun j => negb (is_error (getCoinCapPrice ParseFloat (fetch j) (TSymbol token))))
    (seq k n).


(** The table's ids stay distinct and below the AUTOINCREMENT counter. *)
Definition ids_ok (db : db_state) : Prop :=
  Forall (fun p => (PID p < next_id db)%Z) (table db) /\ NoDup (map PID (table db)).

Definition rec_btc_high : coinCapRecord :=
  {| ID := "bitcoin"; Symbol := "BTC"; PriceUsd := "60000" |}.

(** A decoded request body carrying an id and timestamps of its own. *)
Definition body_btc_forged : Portfolio :=
  {| PID := 99; UserID := 7; PSymbol := "BTC"; PAmount := 0.5; CreatedAt := 12345;
     UpdatedAt := Some 12345%Z |}.

Definition db_one_row : db_state :=
  {| table := [{| PID := 1; UserID := 7; PSymbol := "ETH"; PAmount := 2; CreatedAt := 100;
                  UpdatedAt := None |}];
     next_id := 2 |}.

(** One row whose value overflows binary64 at the BTC price of 50000. *)
Definition holdings_huge_btc : list holding_row := [row "BTC" 1e308]%float.

(** ** Properties *)

(** IEEE [<] is irreflexive (NaN compares false with everything). *)
Lemma ltb_irrefl (x : float) : PrimFloat.ltb x x = false.
Proof.
  rewrite FloatAxioms.ltb_spec. unfold SFltb, SFcompare.
  destruct (Prim2SF x) as [s | s | | s m e]; try destruct s; try reflexivity;
    rewrite Z.compare_refl; try rewrite Pos.compare_cont_refl; reflexivity.
Qed.

Section Properties.

Variable ParseFloat : string -> option float.

Lemma monitor_iteration_error (token : tokenConfig) (resp : fetch_result) err :
  getCoinCapPrice ParseFloat resp (TSymbol token) = inr err ->
  monitor_iteration ParseFloat token resp = [EvFetch; EvLogError (Name token) err].
Proof. intros H. unfold monitor_iteration. rewrite H. reflexivity. Qed.

(** C1 (as the code is written): when every fetch of a run fails, the [n]
    iterations of [monitorToken] issue [n] fetches and never sleep: the
    [continue] retries at once. *)
Theorem monitorToken_failures_never_sleep (token : tokenConfig)
  (fetch : nat -> fetch_result) (k n : nat) :
  (forall j, is_error (getCoinCapPrice ParseFloat (fetch j) (TSymbol token)) = true) ->
  length (filter is_fetch (monitorToken ParseFloat token fetch k n)) = n /\
  filter is_sleep (monitorToken ParseFloat token fetch k n) = [].
Proof.
  intros Hfail. revert k. induction n as [|n IH]; intros k; [split; reflexivity|].
  cbn [monitorToken]. destruct (getCoinCapPrice ParseFloat (fetch k) (TSymbol token)) as [p|err] eqn:E.
  - specialize (Hfail k). rewrite E in Hfail. discriminate.
  - rewrite (monitor_iteration_error _ _ _ E). simpl.
    destruct (IH (S k)) as [H1 H2]. rewrite H1, H2. split; reflexivity.
Qed.

(** C4: after a successful fetch, the iteration emits exactly one alert when
    [price > threshold] (IEEE comparison) and none otherwise; in particular a
    price equal to the threshold raises no alert. *)
Theorem monitor_alert_strict_gt (token : tokenConfig) (resp : fetch_result)
  (price : float) :
  getCoinCapPrice ParseFloat resp (TSymbol token) = inl price ->
  filter is_alert (monitor_iteration ParseFloat token resp) =
    (if PrimFloat.ltb (Threshold token) price
     then [EvAlert (Name token) price (Threshold token)] else []) /\
  (price = Threshold token -> filter is_alert (monitor_iteration ParseFloat token resp) = []).
Proof.
  intros H. unfold monitor_iteration. rewrite H.
  assert (Hf : filter is_alert
    (EvFetch :: (if PrimFloat.ltb (Threshold token) price
                 then [EvAlert (Name token) price (Threshold token)] else [])
             ++ [EvSleep retryDelay]) =
    (if PrimFloat.ltb (Threshold token) price
     then [EvAlert (Name token) price (Threshold token)] else []))
    by (destruct (PrimFloat.ltb (Threshold token) price); reflexivity).
  rewrite Hf. split; [reflexivity|].
  intros ->. rewrite ltb_irrefl. reflexivity.
Qed.

(** *** getCoinCapPrice *)

Lemma lookup_loop_skip (pre rest : list coinCapRecord) (symbol : string) :
  (forall x, In x pre -> Symbol x <> symbol) ->
  lookup_loop ParseFloat (pre ++ rest) symbol = lookup_loop ParseFloat rest symbol.
Proof.
  induction pre as [|x pre IH]; intros Hpre; [reflexivity|].
  simpl. destruct (String.eqb_spec (Symbol x) symbol) as [E|_].
  - exfalso. exact (Hpre x (or_introl eq_refl) E).
  - apply IH. intros y Hy. apply Hpre. right. exact Hy.
Qed.

(** C5: a symbol carried by no record of the decoded catalog yields the
    not-found error, never a price (in particular never [0]). *)
Theorem getCoinCapPrice_absent_not_found (data : list coinCapRecord) (symbol : string) :
  (forall x, In x data -> Symbol x <> symbol) ->
  getCoinCapPrice ParseFloat (Body data) symbol = inr (ErrNotFound symbol) /\
  (forall p, getCoinCapPrice ParseFloat (Body data) symbol <> inl p).
Proof.
  intros H. assert (E : getCoinCapPrice ParseFloat (Body data) symbol = inr (ErrNotFound symbol)).
  { simpl. rewrite <- (app_nil_r data). rewrite lookup_loop_skip by exact H. reflexivity. }
  split; [exact E|]. intros p. rewrite E. discriminate.
Qed.

(** C7: when the first record carrying the requested symbol has a price
    string [ParseFloat] rejects, the call returns the parse error and no price,
    whatever records follow (a later record with the same symbol and a good
    price is not used). *)
Theorem getCoinCapPrice_parse_failure (pre post : list coinCapRecord)
  (r : coinCapRecord) (symbol : string) :
  (forall x, In x pre -> Symbol x <> symbol) ->
  Symbol r = symbol ->
  ParseFloat (PriceUsd r) = None ->
  getCoinCapPrice ParseFloat (Body (pre ++ r :: post)) symbol = inr (ErrParse (PriceUsd r)).
Proof.
  intros Hpre Hr Hp. simpl. rewrite lookup_loop_skip by exact Hpre. simpl.
  rewrite Hr, String.eqb_refl, Hp. reflexivity.
Qed.

(** C9: the lookup compares symbols with exact (hence case-sensitive) string
    equality and takes the first record that matches; later records with the
    same symbol are ignored.  A symbol differing only in case does not match. *)
Theorem getCoinCapPrice_first_exact_match (pre post : list coinCapRecord)
  (r : coinCapRecord) (symbol : string) :
  ((forall x, In x pre -> Symbol x <> symbol) ->
   Symbol r = symbol ->
   getCoinCapPrice ParseFloat (Body (pre ++ r :: post)) symbol =
     match ParseFloat (PriceUsd r) with
     | Some p => inl p
     | None => inr (ErrParse (PriceUsd r))
     end) /\
  getCoinCapPrice ParseFloat
    (Body [{| ID := "bitcoin"; Symbol := "BTC"; PriceUsd := "50000" |}]) "btc"
    = inr (ErrNotFound "btc").
Proof.
  split; [|reflexivity].
  intros Hpre Hr. simpl. rewrite lookup_loop_skip by exact Hpre. simpl.
  rewrite Hr, String.eqb_refl. reflexivity.
Qed.

(** *** handlePortfolioValue *)

Lemma value_loop_fails_at (fetch : nat -> fetch_result) (m : amounts)
  (symbol : string) :
  (forall n, is_error (getCoinCapPrice ParseFloat (fetch n) symbol) = true) ->
  forall order k total, In symbol order ->
  fst (value_loop ParseFloat fetch m order k total) = RespError 500 price_error_msg.
Proof.
  intros Hfail order. induction order as [|s rest IH]; intros k total Hin;
    [destruct Hin|].
  simpl. destruct (getCoinCapPrice ParseFloat (fetch k) s) as [p|e] eqn:E;
    [|reflexivity].
  destruct Hin as [<-|Hin].
  - specialize (Hfail k). rewrite E in Hfail. discriminate.
  - apply IH. exact Hin.
Qed.

Lemma value_loop_fails_at_index (fetch : nat -> fetch_result) (m : amounts) :
  forall order k total i symbol,
  nth_error order i = Some symbol ->
  is_error (getCoinCapPrice ParseFloat (fetch (k + i)) symbol) = true ->
  fst (value_loop ParseFloat fetch m order k total) = RespError 500 price_error_msg.
Proof.
  intros order. induction order as [|s rest IH]; intros k total i symbol Hi Hfail;
    [destruct i; discriminate|].
  simpl. destruct (getCoinCapPrice ParseFloat (fetch k) s) as [p|e] eqn:E;
    [|reflexivity].
  destruct i as [|i]; simpl in Hi.
  - injection Hi as ->. rewrite Nat.add_0_r, E in Hfail. discriminate.
  - apply (IH (S k) _ i symbol Hi). replace (S k + i) with (k + S i) by lia. exact Hfail.
Qed.

Lemma encode_response_error (r : response) :
  r = RespError 500 price_error_msg -> encode_response r = RespError 500 price_error_msg.
Proof. intros ->. reflexivity. Qed.

(** C2 (amended): if the lookup the handler performs for some distinct symbol
    fails (at the fetch issued for it, the [i]-th for the [i]-th symbol of the
    iteration order), the handler answers the generic server error and no
    total; in particular, a symbol that fails on every fetch makes the handler
    fail under every iteration order, hence also on a retry. *)
Theorem handlePortfolioValue_lookup_failure (fetch : nat -> fetch_result)
  (order : list string) (rows : list holding_row) :
  iteration_order (group_rows rows) order ->
  (forall i symbol, nth_error order i = Some symbol ->
     is_error (getCoinCapPrice ParseFloat (fetch i) symbol) = true ->
     fst (handlePortfolioValue ParseFloat fetch order rows) = RespError 500 price_error_msg) /\
  (forall symbol, In symbol (keys (group_rows rows)) ->
     (forall n, is_error (getCoinCapPrice ParseFloat (fetch n) symbol) = true) ->
     fst (handlePortfolioValue ParseFloat fetch order rows) = RespError 500 price_error_msg).
Proof.
  intros Hord. split.
  - intros i symbol Hi Hfail. unfold handlePortfolioValue. simpl.
    apply encode_response_error.
    exact (value_loop_fails_at_index fetch _ order 0 0%float i symbol Hi Hfail).
  - intros symbol Hin Hfail. unfold handlePortfolioValue. simpl.
    apply encode_response_error.
    apply (value_loop_fails_at fetch _ symbol Hfail).
    apply (Permutation_in symbol (Permutation_sym Hord)). exact Hin.
Qed.

Lemma value_loop_resolves (fetch : nat -> fetch_result) (m : amounts)
  (price : string -> float) :
  forall order k total,
  (forall s n, In s order -> getCoinCapPrice ParseFloat (fetch n) s = inl (price s)) ->
  value_loop ParseFloat fetch m order k total =
    (RespOK (fold_left (fun acc s => acc + price s * map_get m s)%float order total),
     k + length order).
Proof.
  intros order. induction order as [|s rest IH]; intros k total H.
  - simpl. rewrite Nat.add_0_r. reflexivity.
  - simpl. rewrite (H s k (or_introl eq_refl)).
    rewrite IH by (intros s' n Hs'; apply H; right; exact Hs').
    rewrite Nat.add_succ_r. reflexivity.
Qed.

(** C6 (amended): when every symbol resolves to its price, the handler
    computes the sum, over the distinct symbols in the map's iteration order,
    of price times the symbol's accumulated amount, after one fetch per
    symbol, and answers it when it is finite; a NaN or infinite sum cannot be
    encoded and is answered with the encoding error.  With the catalog
    {BTC: 50000, ETH: 3000} and holdings {BTC: 0.5, ETH: 2} it answers 31000
    in either iteration order. *)
Theorem handlePortfolioValue_sum_of_products :
  (forall (fetch : nat -> fetch_result) (order : list string)
          (rows : list holding_row) (price : string -> float),
   iteration_order (group_rows rows) order ->
   (forall s n, In s (keys (group_rows rows)) ->
      getCoinCapPrice ParseFloat (fetch n) s = inl (price s)) ->
   let total := fold_left (fun acc s => acc + price s * map_get (group_rows rows) s)%float
                  order 0%float in
   handlePortfolioValue ParseFloat fetch order rows =
     (if PrimFloat.is_finite total then RespOK total else RespError 500 encode_failed_msg,
      length (keys (group_rows rows)))) /\
  (forall order, iteration_order (group_rows holdings_half_btc_two_eth) order ->
   fst (handlePortfolioValue parse_decimal (fun _ => catalog_btc_eth) order
          holdings_half_btc_two_eth) = RespOK 31000%float).
Proof.
  split.
  2:{ intros order Hord. unfold iteration_order in Hord. vm_compute in Hord.
      apply Permutation_sym, Permutation_length_2_inv in Hord.
      destruct Hord as [->| ->]; vm_compute; reflexivity. }
  intros fetch order rows price Hord H. unfold handlePortfolioValue.
  rewrite (value_loop_resolves fetch _ price). cbn [fst snd].
  - rewrite (Permutation_length Hord). reflexivity.
  - intros s n Hs. apply H. exact (Permutation_in s Hord Hs).
Qed.

(** C10: with no holdings the handler answers [0] and fetches nothing. *)
Theorem handlePortfolioValue_empty (fetch : nat -> fetch_result) (order : list string) :
  iteration_order (group_rows []) order ->
  handlePortfolioValue ParseFloat fetch order [] = (RespOK 0%float, 0).
Proof.
  intros Hord. unfold iteration_order in Hord. simpl in Hord.
  apply Permutation_sym, Permutation_nil in Hord. subst order. reflexivity.
Qed.

(** *** Grouping of the rows *)

Lemma add_amount_get (m : amounts) (sym : string) (amt : float) (s : string) :
  map_get (add_amount m sym amt) s =
    if String.eqb sym s then (map_get m s + amt)%float else map_get m s.
Proof.
  induction m as [|[s' a] rest IH]; simpl.
  - destruct (String.eqb sym s); reflexivity.
  - destruct (String.eqb_spec s' sym) as [->|Hne]; simpl.
    + destruct (String.eqb sym s); reflexivity.
    + rewrite IH. destruct (String.eqb_spec s' s) as [->|_];
        [|reflexivity].
      destruct (String.eqb_spec sym s) as [->|_]; [congruence|reflexivity].
Qed.

Lemma fold_group_get (rows : list holding_row) (m : amounts) (s : string) :
  map_get (fold_left (fun m r => add_amount m (HSymbol r) (Amount r)) rows m) s =
  fold_left (fun acc r => if String.eqb (HSymbol r) s then (acc + Amount r)%float else acc)
    rows (map_get m s).
Proof.
  revert m. induction rows as [|r rows IH]; intros m; [reflexivity|].
  simpl. rewrite IH, add_amount_get. reflexivity.
Qed.

Lemma value_loop_ext (fetch : nat -> fetch_result) (m1 m2 : amounts) :
  (forall s, map_get m1 s = map_get m2 s) ->
  forall order k total,
  value_loop ParseFloat fetch m1 order k total = value_loop ParseFloat fetch m2 order k total.
Proof.
  intros Hm order. induction order as [|s rest IH]; intros k total; [reflexivity|].
  simpl. destruct (getCoinCapPrice ParseFloat (fetch k) s); [|reflexivity].
  rewrite Hm. apply IH.
Qed.

(** C3 (amended): a symbol's amount is the row-order floating-point sum of the
    amounts of its rows (duplicates add up, none overwrites another); holdings
    whose accumulated amounts agree on every symbol get the same response from
    the same price source under the same iteration order. *)
Theorem group_rows_additive :
  (forall (rows : list holding_row) (s : string),
     map_get (group_rows rows) s =
     fold_left (fun acc r => if String.eqb (HSymbol r) s then (acc + Amount r)%float else acc)
       rows 0%float) /\
  (forall (fetch : nat -> fetch_result) (order : list string)
          (rows1 rows2 : list holding_row),
     iteration_order (group_rows rows1) order ->
     iteration_order (group_rows rows2) order ->
     (forall s, map_get (group_rows rows1) s = map_get (group_rows rows2) s) ->
     handlePortfolioValue ParseFloat fetch order rows1 =
     handlePortfolioValue ParseFloat fetch order rows2).
Proof.
  split.
  - intros rows s. unfold group_rows. rewrite fold_group_get. reflexivity.
  - intros fetch order rows1 rows2 _ _ Hm. unfold handlePortfolioValue.
    rewrite (value_loop_ext fetch _ _ Hm). reflexivity.
Qed.

(** *** Fetching the catalog once *)

Lemma parse_all_lookup (data : list coinCapRecord) :
  forall snap, parse_all ParseFloat data = inl snap ->
  forall s, lookup_loop ParseFloat data s = lookupPrice snap s.
Proof.
  induction data as [|r rest IH]; intros snap H s.
  - simpl in H. injection H as <-. reflexivity.
  - simpl in H. destruct (ParseFloat (PriceUsd r)) as [p|] eqn:Ep; [|discriminate].
    destruct (parse_all ParseFloat rest) as [snap'|e]; [|discriminate].
    injection H as <-. simpl. rewrite Ep. rewrite (IH snap' eq_refl s). reflexivity.
Qed.

Lemma value_loop_same_catalog (fetch : nat -> fetch_result) (data : list coinCapRecord)
  (snap : list (string * float)) (m : amounts) :
  (forall n, fetch n = Body data) ->
  parse_all ParseFloat data = inl snap ->
  forall order k total,
  fst (value_loop ParseFloat fetch m order k total) = value_loop_snapshot snap m order total.
Proof.
  intros Hf Hp order. induction order as [|s rest IH]; intros k total; [reflexivity|].
  simpl. rewrite Hf. simpl. rewrite (parse_all_lookup data snap Hp s).
  destruct (lookupPrice snap s); [apply IH|reflexivity].
Qed.

Lemma lookupPrice_found (snap : list (string * float)) (s : string) :
  (exists p, lookupPrice snap s = inl p) <-> In s (map fst snap).
Proof.
  induction snap as [|[s' p] rest IH]; simpl.
  - split; [intros [p H]; discriminate | intros []].
  - destruct (String.eqb_spec s' s) as [->|Hne].
    + split; [intros _; left; reflexivity | intros _; exists p; reflexivity].
    + rewrite IH. split; [intros H; right; exact H|].
      intros [H|H]; [congruence|exact H].
Qed.

Lemma value_loop_snapshot_ok (snap : list (string * float)) (m : amounts) :
  forall order total,
  (exists v, value_loop_snapshot snap m order total = RespOK v) <->
  (forall s, In s order -> In s (map fst snap)).
Proof.
  intros order. induction order as [|s rest IH]; intros total; simpl.
  - split; [intros _ s []|intros _; exists total; reflexivity].
  - destruct (lookupPrice snap s) as [p|e] eqn:E.
    + rewrite IH. split.
      * intros H s' [<-|Hs']; [apply lookupPrice_found; exists p; exact E|].
        apply H. exact Hs'.
      * intros H s' Hs'. apply H. right. exact Hs'.
    + split; [intros [v Hv]; discriminate|].
      intros H. exfalso. destruct (proj2 (lookupPrice_found snap s) (H s (or_introl eq_refl)))
        as [p Hp]. congruence.
Qed.

(** C8: if every fetch of one valuation returns the same catalog and that
    catalog converts into a snapshot, the handler's response is the result of
    the fetch-once valuation written out by the same [Encode] step; the
    fetch-once valuation succeeds exactly when every symbol is in the
    snapshot. *)
Theorem valuate_fetch_once_refines (fetch : nat -> fetch_result)
  (resp : fetch_result) (snap : list (string * float))
  (order : list string) (rows : list holding_row) :
  (forall n, fetch n = resp) ->
  fetchPrices ParseFloat resp = inl snap ->
  fst (handlePortfolioValue ParseFloat fetch order rows) =
    encode_response (valuate_fetch_once ParseFloat fetch order rows) /\
  ((exists v, valuate_fetch_once ParseFloat fetch order rows = RespOK v) <->
   (forall s, In s order -> In s (map fst snap))).
Proof.
  intros Hf Hs. destruct resp as [| |data]; try discriminate. simpl in Hs.
  assert (E : valuate_fetch_once ParseFloat fetch order rows =
              value_loop_snapshot snap (group_rows rows) order 0%float).
  { unfold valuate_fetch_once. rewrite Hf. simpl. rewrite Hs. reflexivity. }
  rewrite E. split.
  - unfold handlePortfolioValue. cbn [fst].
    rewrite (value_loop_same_catalog fetch data snap _ Hf Hs). reflexivity.
  - apply value_loop_snapshot_ok.
Qed.

End Properties.

(** ** Witnesses and counterexamples *)

Lemma monitorToken_failures_never_sleep_witness :
  length (filter is_fetch (monitorToken parse_decimal bitcoin_watch (fun _ => FetchError) 0 3)) = 3 /\
  filter is_sleep (monitorToken parse_decimal bitcoin_watch (fun _ => FetchError) 0 3) = [].
Proof.
  apply (monitorToken_failures_never_sleep parse_decimal bitcoin_watch (fun _ => FetchError) 0 3).
  intros j. reflexivity.
Defined.

Lemma monitor_alert_strict_gt_witness :
  getCoinCapPrice parse_decimal catalog_btc_eth "BTC" = inl 50000%float /\
  filter is_alert (monitor_iteration parse_decimal bitcoin_watch catalog_btc_eth) = [].
Proof.
  split; [vm_compute; reflexivity|].
  apply (proj2 (monitor_alert_strict_gt parse_decimal bitcoin_watch catalog_btc_eth 50000%float
                  ltac:(vm_compute; reflexivity))).
  reflexivity.
Defined.

(** C2: the handler's failure does not carry the lookup's error: a transport
    failure and a missing symbol are different errors of [getCoinCapPrice] but
    give the same response. *)
Lemma handlePortfolioValue_error_is_generic :
  getCoinCapPrice parse_decimal FetchError "BTC" <>
    getCoinCapPrice parse_decimal (Body []) "BTC" /\
  iteration_order (group_rows holdings_merged) ["BTC"; "ETH"] /\
  fst (handlePortfolioValue parse_decimal (fun _ => FetchError) ["BTC"; "ETH"] holdings_merged) =
  fst (handlePortfolioValue parse_decimal (fun _ => Body []) ["BTC"; "ETH"] holdings_merged).
Proof.
  split; [discriminate|split].
  - unfold iteration_order. vm_compute. apply Permutation_refl.
  - vm_compute. reflexivity.
Qed.

(** C6: every symbol resolves, yet the handler answers no sum: [1e308 * 50000]
    is infinite, which [Encode] refuses, so the answer is the encoding error. *)
Lemma handlePortfolioValue_overflow_not_encoded :
  iteration_order (group_rows holdings_huge_btc) ["BTC"] /\
  getCoinCapPrice parse_decimal (Body [rec_btc]) "BTC" = inl 50000%float /\
  fst (handlePortfolioValue parse_decimal (fun _ => Body [rec_btc]) ["BTC"] holdings_huge_btc) =
    RespError 500 encode_failed_msg /\
  (forall v, fst (handlePortfolioValue parse_decimal (fun _ => Body [rec_btc]) ["BTC"]
                   holdings_huge_btc) <> RespOK v).
Proof.
  split; [unfold iteration_order; vm_compute; apply Permutation_refl|].
  split; [vm_compute; reflexivity|].
  assert (E : fst (handlePortfolioValue parse_decimal (fun _ => Body [rec_btc]) ["BTC"]
                     holdings_huge_btc) = RespError 500 encode_failed_msg)
    by (vm_compute; reflexivity).
  split; [exact E|]. intros v. rewrite E. discriminate.
Qed.

Lemma handlePortfolioValue_lookup_failure_witness :
  fst (handlePortfolioValue parse_decimal
         (fun n => if Nat.eqb n 1 then FetchError else catalog_btc_eth) ["BTC"; "ETH"]
         holdings_half_btc_two_eth) = RespError 500 price_error_msg.
Proof.
  apply (proj1 (handlePortfolioValue_lookup_failure parse_decimal
                  (fun n => if Nat.eqb n 1 then FetchError else catalog_btc_eth) ["BTC"; "ETH"]
                  holdings_half_btc_two_eth
                  ltac:(unfold iteration_order; vm_compute; apply Permutation_refl))
           1 "ETH").
  - reflexivity.
  - reflexivity.
Defined.

(** C3: permuting the rows of one symbol changes the binary64 total, so the
    two permutations valuate differently. *)
Lemma group_rows_order_dependent :
  Permutation holdings_tenths holdings_tenths_rev /\
  iteration_order (group_rows holdings_tenths) ["BTC"] /\
  iteration_order (group_rows holdings_tenths_rev) ["BTC"] /\
  fst (handlePortfolioValue parse_decimal (fun _ => Body [rec_btc_one]) ["BTC"] holdings_tenths) <>
  fst (handlePortfolioValue parse_decimal (fun _ => Body [rec_btc_one]) ["BTC"] holdings_tenths_rev).
Proof.
  split; [|split; [|split]].
  - unfold holdings_tenths, holdings_tenths_rev.
    apply (Permutation_trans (l' := [row "BTC" 0.2; row "BTC" 0.1; row "BTC" 0.3]%float));
      [apply perm_swap|].
    apply (Permutation_trans (l' := [row "BTC" 0.2; row "BTC" 0.3; row "BTC" 0.1]%float));
      [apply perm_skip, perm_swap|apply perm_swap].
  - unfold iteration_order. vm_compute. apply Permutation_refl.
  - unfold iteration_order. vm_compute. apply Permutation_refl.
  - intros H.
    apply (f_equal (fun r => match r with RespOK v => PrimFloat.eqb v 0.6 | _ => false end)) in H.
    vm_compute in H. discriminate.
Qed.

Lemma group_rows_additive_witness :
  handlePortfolioValue parse_decimal (fun _ => catalog_btc_eth) ["BTC"; "ETH"] holdings_split =
  handlePortfolioValue parse_decimal (fun _ => catalog_btc_eth) ["BTC"; "ETH"] holdings_merged.
Proof.
  apply (proj2 (group_rows_additive parse_decimal)).
  - unfold iteration_order. vm_compute. apply Permutation_refl.
  - unfold iteration_order. vm_compute. apply Permutation_refl.
  - intros s.
    assert (E : group_rows holdings_split = group_rows holdings_merged)
      by (vm_compute; reflexivity).
    rewrite E. reflexivity.
Defined.

Lemma getCoinCapPrice_absent_not_found_witness :
  getCoinCapPrice parse_decimal catalog_btc_eth "DOGE" = inr (ErrNotFound "DOGE").
Proof.
  apply (proj1 (getCoinCapPrice_absent_not_found parse_decimal [rec_btc; rec_eth] "DOGE"
                  ltac:(intros x Hx; destruct Hx as [<-|[<-|[]]]; discriminate))).
Defined.

Lemma getCoinCapPrice_parse_failure_witness :
  getCoinCapPrice parse_decimal (Body ([rec_eth] ++ rec_btc_bad :: [rec_btc])) "BTC" =
    inr (ErrParse "n/a").
Proof.
  apply (getCoinCapPrice_parse_failure parse_decimal [rec_eth] [rec_btc] rec_btc_bad "BTC").
  - intros x Hx. destruct Hx as [<-|[]]. discriminate.
  - reflexivity.
  - vm_compute. reflexivity.
Defined.

Lemma getCoinCapPrice_first_exact_match_witness :
  getCoinCapPrice parse_decimal (Body ([rec_eth] ++ rec_btc :: [rec_btc_one])) "BTC" =
    match parse_decimal (PriceUsd rec_btc) with
    | Some p => inl p
    | None => inr (ErrParse (PriceUsd rec_btc))
    end.
Proof.
  apply (proj1 (getCoinCapPrice_first_exact_match parse_decimal [rec_eth] [rec_btc_one]
                  rec_btc "BTC")).
  - intros x Hx. destruct Hx as [<-|[]]. discriminate.
  - reflexivity.
Defined.

Lemma handlePortfolioValue_sum_of_products_witness :
  handlePortfolioValue parse_decimal (fun _ => catalog_btc_eth) ["ETH"; "BTC"]
    holdings_half_btc_two_eth = (RespOK 31000%float, 2).
Proof.
  rewrite (proj1 (handlePortfolioValue_sum_of_products parse_decimal)
             (fun _ => catalog_btc_eth) ["ETH"; "BTC"] holdings_half_btc_two_eth price_btc_eth).
  - vm_compute. reflexivity.
  - unfold iteration_order. vm_compute. apply perm_swap.
  - intros s n Hs. vm_compute in Hs. destruct Hs as [<-|[<-|[]]]; vm_compute; reflexivity.
Defined.

Lemma valuate_fetch_once_refines_witness :
  fst (handlePortfolioValue parse_decimal (fun _ => catalog_btc_eth) ["BTC"; "ETH"]
         holdings_half_btc_two_eth) =
  encode_response (valuate_fetch_once parse_decimal (fun _ => catalog_btc_eth) ["BTC"; "ETH"]
    holdings_half_btc_two_eth).
Proof.
  apply (proj1 (valuate_fetch_once_refines parse_decimal (fun _ => catalog_btc_eth)
                  catalog_btc_eth snapshot_btc_eth ["BTC"; "ETH"] holdings_half_btc_two_eth
                  (fun _ => eq_refl) ltac:(vm_compute; reflexivity))).
Defined.

Lemma handlePortfolioValue_empty_witness :
  handlePortfolioValue parse_decimal (fun _ => FetchError) [] [] = (RespOK 0%float, 0).
Proof.
  apply (handlePortfolioValue_empty parse_decimal (fun _ => FetchError) []).
  unfold iteration_order. apply perm_nil.
Defined.

(** ** Further properties of main.go *)

Section CodeProperties.

Variable ParseFloat : string -> option float.

(** *** getCoinCapPrice *)

(** Only the records carrying the requested symbol matter: the others, bad
    price strings included, are never looked at. *)
Theorem getCoinCapPrice_only_matching_records (data : list coinCapRecord) (symbol : string) :
  getCoinCapPrice ParseFloat (Body data) symbol =
  getCoinCapPrice ParseFloat (Body (filter (fun r => String.eqb (Symbol r) symbol) data)) symbol.
Proof.
  simpl. induction data as [|r rest IH]; [reflexivity|].
  simpl. destruct (String.eqb (Symbol r) symbol) eqn:E; simpl; [|exact IH].
  rewrite E. reflexivity.
Qed.

(** A price is returned only from a decoded catalog whose first record with
    the requested symbol has a price string that parses to it. *)
Theorem getCoinCapPrice_success_inv (resp : fetch_result) (symbol : string) (p : float) :
  getCoinCapPrice ParseFloat resp symbol = inl p ->
  exists pre r post,
    resp = Body (pre ++ r :: post) /\
    (forall x, In x pre -> Symbol x <> symbol) /\
    Symbol r = symbol /\ ParseFloat (PriceUsd r) = Some p.
Proof.
  destruct resp as [| |data]; simpl; try discriminate.
  induction data as [|r rest IH]; simpl; [discriminate|].
  destruct (String.eqb_spec (Symbol r) symbol) as [E|Hne].
  - destruct (ParseFloat (PriceUsd r)) as [q|] eqn:Ep; [|discriminate].
    intros H. injection H as <-. exists [], r, rest. simpl.
    repeat split; [intros x []|exact E|exact Ep].
  - intros H. destruct (IH H) as (pre & r' & post & Hb & Hpre & Hr & Hp).
    injection Hb as ->. exists (r :: pre), r', post. repeat split; try assumption.
    intros x [<-|Hx]; [exact Hne|exact (Hpre x Hx)].
Qed.

(** *** monitorToken *)

Lemma monitor_iteration_filters (token : tokenConfig) (resp : fetch_result) :
  filter is_fetch (monitor_iteration ParseFloat token resp) = [EvFetch] /\
  filter is_sleep (monitor_iteration ParseFloat token resp) =
    (if is_error (getCoinCapPrice ParseFloat resp (TSymbol token)) then []
     else [EvSleep retryDelay]) /\
  filter is_alert (monitor_iteration ParseFloat token resp) =
    match getCoinCapPrice ParseFloat resp (TSymbol token) with
    | inr _ => []
    | inl price =>
        if PrimFloat.ltb (Threshold token) price
        then [EvAlert (Name token) price (Threshold token)] else []
    end.
Proof.
  unfold monitor_iteration.
  destruct (getCoinCapPrice ParseFloat resp (TSymbol token)) as [price|err];
    [destruct (PrimFloat.ltb (Threshold token) price)|]; repeat split.
Qed.

(** The monitor sleeps once per iteration whose fetch succeeded and never
    after a failed one. *)
Theorem monitorToken_sleep_count (token : tokenConfig) (fetch : nat -> fetch_result)
  (k n : nat) :
  length (filter is_sleep (monitorToken ParseFloat token fetch k n)) =
  length (successful_iterations ParseFloat token fetch k n).
Proof.
  unfold successful_iterations. revert k. induction n as [|n IH]; intros k; [reflexivity|].
  cbn [monitorToken seq filter]. rewrite filter_app, length_app.
  rewrite (proj1 (proj2 (monitor_iteration_filters token (fetch k)))), IH.
  destruct (is_error (getCoinCapPrice ParseFloat (fetch k) (TSymbol token))); reflexivity.
Qed.

(** Alerts are not deduplicated: while every fetch returns a price above the
    threshold, every iteration emits its own alert. *)
Theorem monitorToken_alert_every_cycle (token : tokenConfig) (fetch : nat -> fetch_result)
  (price : nat -> float) (k n : nat) :
  (forall j, getCoinCapPrice ParseFloat (fetch j) (TSymbol token) = inl (price j) /\
             PrimFloat.ltb (Threshold token) (price j) = true) ->
  filter is_alert (monitorToken ParseFloat token fetch k n) =
  map (fun j => EvAlert (Name token) (price j) (Threshold token)) (seq k n).
Proof.
  intros H. revert k. induction n as [|n IH]; intros k; [reflexivity|].
  cbn [monitorToken seq map]. rewrite filter_app.
  rewrite (proj2 (proj2 (monitor_iteration_filters token (fetch k)))).
  destruct (H k) as [E L]. rewrite E, L, IH. reflexivity.
Qed.

Lemma ltb_nan_r (x : float) : PrimFloat.ltb x PrimFloat.nan = false.
Proof.
  rewrite FloatAxioms.ltb_spec.
  assert (E : Prim2SF PrimFloat.nan = S754_nan) by (vm_compute; reflexivity).
  rewrite E. unfold SFltb, SFcompare. destruct (Prim2SF x); reflexivity.
Qed.

(** A price that parses to NaN never raises an alert, whatever the
    threshold; the monitor still sleeps and polls again. *)
Theorem monitor_nan_never_alerts (token : tokenConfig) (resp : fetch_result) :
  getCoinCapPrice ParseFloat resp (TSymbol token) = inl PrimFloat.nan ->
  filter is_alert (monitor_iteration ParseFloat token resp) = [] /\
  filter is_sleep (monitor_iteration ParseFloat token resp) = [EvSleep retryDelay].
Proof.
  intros E. destruct (monitor_iteration_filters token resp) as (_ & Hs & Ha).
  rewrite Ha, Hs, E, ltb_nan_r. split; reflexivity.
Qed.

(** *** The [cryptoAmounts] map *)

Lemma keys_add_amount_in (m : amounts) (sym : string) (a : float) (s : string) :
  In s (keys (add_amount m sym a)) <-> s = sym \/ In s (keys m).
Proof.
  induction m as [|[s' a'] rest IH]; simpl.
  - split; [intros [->|[]]; left; reflexivity|intros [->|[]]; left; reflexivity].
  - destruct (String.eqb_spec s' sym) as [->|Hne]; simpl.
    + split; [intros H; right; exact H|intros [->|H]; [left; reflexivity|exact H]].
    + rewrite IH. split; intros H; destruct H as [H|[H|H]]; auto.
Qed.

Lemma keys_add_amount_nodup (m : amounts) (sym : string) (a : float) :
  NoDup (keys m) -> NoDup (keys (add_amount m sym a)).
Proof.
  induction m as [|[s' a'] rest IH]; simpl; intros Hnd.
  - constructor; [intros []|constructor].
  - apply NoDup_cons_iff in Hnd as [Hnin Hnd].
    destruct (String.eqb_spec s' sym) as [->|Hne]; simpl.
    + constructor; assumption.
    + constructor; [|exact (IH Hnd)].
      rewrite keys_add_amount_in. intros [H|H]; [congruence|contradiction].
Qed.

Lemma fold_group_keys (rows : list holding_row) (m : amounts) :
  (NoDup (keys m) ->
   NoDup (keys (fold_left (fun m r => add_amount m (HSymbol r) (Amount r)) rows m))) /\
  (forall s, In s (keys (fold_left (fun m r => add_amount m (HSymbol r) (Amount r)) rows m))
             <-> In s (keys m) \/ In s (map HSymbol rows)).
Proof.
  revert m. induction rows as [|r rows IH]; intros m; simpl.
  - split; [intros H; exact H|intros s; tauto].
  - destruct (IH (add_amount m (HSymbol r) (Amount r))) as [H1 H2]. split.
    + intros Hnd. apply H1, keys_add_amount_nodup, Hnd.
    + intros s. rewrite H2, keys_add_amount_in.
      split; intros H; repeat destruct H as [H|H]; subst; auto.
Qed.

(** The map holds each symbol of the rows exactly once and nothing else. *)
Theorem group_rows_keys (rows : list holding_row) :
  NoDup (keys (group_rows rows)) /\
  (forall s, In s (keys (group_rows rows)) <-> In s (map HSymbol rows)).
Proof.
  unfold group_rows. destruct (fold_group_keys rows []) as [H1 H2]. split.
  - apply H1. constructor.
  - intros s. rewrite H2. simpl. tauto.
Qed.

(** *** handlePortfolioValue *)

Lemma value_loop_count (fetch : nat -> fetch_result) (m : amounts) :
  forall order k total,
  snd (value_loop ParseFloat fetch m order k total) <= k + length order /\
  (forall v, fst (value_loop ParseFloat fetch m order k total) = RespOK v ->
             snd (value_loop ParseFloat fetch m order k total) = k + length order).
Proof.
  intros order. induction order as [|s rest IH]; intros k total; simpl.
  - split; [rewrite Nat.add_0_r; constructor|intros v _; rewrite Nat.add_0_r; reflexivity].
  - destruct (getCoinCapPrice ParseFloat (fetch k) s); simpl.
    + destruct (IH (S k) (total + f * map_get m s)%float) as [H1 H2].
      rewrite Nat.add_succ_r. split; [exact H1|exact H2].
    + split; [rewrite Nat.add_succ_r; apply le_n_S, Nat.le_add_r|intros v H; discriminate].
Qed.

(** The handler never fetches the catalog more than once per distinct symbol,
    and fetches it exactly once per distinct symbol when it succeeds. *)
Theorem handlePortfolioValue_fetch_count (fetch : nat -> fetch_result)
  (order : list string) (rows : list holding_row) :
  iteration_order (group_rows rows) order ->
  snd (handlePortfolioValue ParseFloat fetch order rows) <= length (keys (group_rows rows)) /\
  (forall v, fst (handlePortfolioValue ParseFloat fetch order rows) = RespOK v ->
             snd (handlePortfolioValue ParseFloat fetch order rows) =
             length (keys (group_rows rows))).
Proof.
  intros Hord. rewrite <- (Permutation_length Hord).
  destruct (value_loop_count fetch (group_rows rows) order 0 0%float) as [H1 H2].
  unfold handlePortfolioValue. cbn [fst snd]. split; [exact H1|].
  intros v Hv. destruct (fst (value_loop ParseFloat fetch (group_rows rows) order 0 0%float))
    as [w|c msg] eqn:E; [exact (H2 w eq_refl)|discriminate].
Qed.

Lemma scan_amounts_some (rows : list holding_row) (m : amounts) :
  scan_amounts (map Some rows) m =
  Some (fold_left (fun m r => add_amount m (HSymbol r) (Amount r)) rows m).
Proof.
  revert m. induction rows as [|r rows IH]; intros m; [reflexivity|]. apply IH.
Qed.

Lemma scan_amounts_none (pre post : list (option holding_row)) (m : amounts) :
  (forall x, In x pre -> x <> None) -> scan_amounts (pre ++ None :: post) m = None.
Proof.
  revert m. induction pre as [|x pre IH]; intros m H; [reflexivity|].
  destruct x as [r|]; [|exfalso; exact (H None (or_introl eq_refl) eq_refl)].
  simpl. apply IH. intros y Hy. apply H. right. exact Hy.
Qed.

(** A failed query or a failed Scan of any row answers a server error before
    any price is fetched. *)
Theorem handlePortfolioValue_db_errors (fetch : nat -> fetch_result) (order : list string)
  (pre post : list (option holding_row)) (iter_err : bool) :
  handlePortfolioValue_http ParseFloat QueryError fetch order = (RespError 500 query_failed_msg, 0) /\
  ((forall x, In x pre -> x <> None) ->
   handlePortfolioValue_http ParseFloat (QueryRows (pre ++ None :: post) iter_err) fetch order =
   (RespError 500 scan_failed_msg, 0)).
Proof.
  split; [reflexivity|]. intros H. simpl. rewrite scan_amounts_none by exact H. reflexivity.
Qed.

End CodeProperties.

(** *** handlePortfolio *)




Lemma scan_portfolio_none (pre post : list (option Portfolio)) acc :
  (forall x, In x pre -> x <> None) -> scan_portfolio (pre ++ None :: post) acc = None.
Proof.
  revert acc. induction pre as [|x pre IH]; intros acc H; [reflexivity|].
  destruct x as [p|]; [|exfalso; exact (H None (or_introl eq_refl) eq_refl)].
  simpl. apply IH. intros y Hy. apply H. right. exact Hy.
Qed.

(** A failed Scan of any row makes [handlePortfolio] answer a server error:
    the rows read before it are not sent. *)
Theorem handlePortfolio_scan_error (pre post : list (option Portfolio)) (iter_err : bool) :
  (forall x, In x pre -> x <> None) ->
  handlePortfolio (QueryRows (pre ++ None :: post) iter_err) = ListError 500 scan_failed_msg.
Proof. intros H. unfold handlePortfolio. rewrite scan_portfolio_none by exact H. reflexivity. Qed.

(** *** handleAddToPortfolio *)


(** Adding a row keeps the table's ids distinct and below the AUTOINCREMENT
    counter. *)
Theorem handleAddToPortfolio_ids_ok (decoded : option Portfolio) (exec_fails : bool)
  (now : Z) (db : db_state) :
  ids_ok db -> ids_ok (snd (handleAddToPortfolio decoded exec_fails now db)).
Proof.
  intros [Hlt Hnd]. destruct decoded as [p|]; [|split; assumption]. simpl.
  destruct exec_fails; [split; assumption|]. simpl. unfold ids_ok; simpl. split.
  - apply Forall_app. split.
    + eapply Forall_impl; [|exact Hlt]. intros r Hr. simpl in Hr. lia.
    + constructor; [simpl; lia|constructor].
  - rewrite map_app. apply NoDup_app; [exact Hnd|constructor; [intros []|constructor]|].
    intros a Ha [Ea|[]]. simpl in Ea. subst a.
    apply in_map_iff in Ha as (r & Er & Hr).
    rewrite Forall_forall in Hlt. specialize (Hlt r Hr). lia.
Qed.


Section AddThenValue.

Variable ParseFloat : string -> option float.

(** After a successful add, the valuation reads the previous rows plus the new
    one: the added symbol's accumulated amount grows by the added amount and
    every other symbol's amount is unchanged. *)
Theorem add_then_value (p : Portfolio) (now : Z) (db : db_state)
  (fetch : nat -> fetch_result) (order : list string) :
  handlePortfolioValue_http ParseFloat
    (select_symbol_amount (snd (handleAddToPortfolio (Some p) false now db))) fetch order =
  handlePortfolioValue ParseFloat fetch order
    (holding_rows db ++ [{| HSymbol := PSymbol p; Amount := PAmount p |}])%list /\
  (forall s,
     map_get (group_rows (holding_rows db ++ [{| HSymbol := PSymbol p; Amount := PAmount p |}])) s =
     if String.eqb (PSymbol p) s
     then (map_get (group_rows (holding_rows db)) s + PAmount p)%float
     else map_get (group_rows (holding_rows db)) s).
Proof.
  split.
  - unfold select_symbol_amount, handlePortfolioValue_http.
    rewrite scan_amounts_some. unfold holding_rows. simpl. rewrite map_app. reflexivity.
  - intros s. unfold group_rows. rewrite fold_left_app. simpl. apply add_amount_get.
Qed.

End AddThenValue.

(** ** Witnesses of the further properties *)

Lemma getCoinCapPrice_success_inv_witness :
  exists pre r post,
    catalog_btc_eth = Body (pre ++ r :: post) /\
    (forall x, In x pre -> Symbol x <> "ETH") /\
    Symbol r = "ETH" /\ parse_decimal (PriceUsd r) = Some 3000%float.
Proof.
  apply (getCoinCapPrice_success_inv parse_decimal catalog_btc_eth "ETH" 3000%float).
  vm_compute. reflexivity.
Defined.

Lemma monitorToken_alert_every_cycle_witness :
  filter is_alert (monitorToken parse_decimal bitcoin_watch (fun _ => Body [rec_btc_high]) 0 2) =
  map (fun j => EvAlert "Bitcoin" 60000%float 50000%float) (seq 0 2).
Proof.
  apply (monitorToken_alert_every_cycle parse_decimal bitcoin_watch (fun _ => Body [rec_btc_high])
           (fun _ => 60000%float) 0 2).
  intros j. split; vm_compute; reflexivity.
Defined.

Lemma monitor_nan_never_alerts_witness :
  filter is_alert (monitor_iteration parse_with_nan bitcoin_watch (Body [rec_btc_nan])) = [] /\
  filter is_sleep (monitor_iteration parse_with_nan bitcoin_watch (Body [rec_btc_nan])) =
    [EvSleep retryDelay].
Proof.
  apply (monitor_nan_never_alerts parse_with_nan bitcoin_watch (Body [rec_btc_nan])).
  vm_compute. reflexivity.
Defined.

Lemma handlePortfolioValue_fetch_count_witness :
  snd (handlePortfolioValue parse_decimal (fun _ => Body [rec_btc]) ["BTC"; "ETH"]
         holdings_half_btc_two_eth) <= length (keys (group_rows holdings_half_btc_two_eth)).
Proof.
  apply (handlePortfolioValue_fetch_count parse_decimal (fun _ => Body [rec_btc]) ["BTC"; "ETH"]
           holdings_half_btc_two_eth).
  unfold iteration_order. vm_compute. apply Permutation_refl.
Defined.

Lemma handlePortfolioValue_db_errors_witness :
  handlePortfolioValue_http parse_decimal
    (QueryRows ([Some (row "BTC" 1%float)] ++ None :: []) false)
    (fun _ => catalog_btc_eth) ["BTC"] = (RespError 500 scan_failed_msg, 0).
Proof.
  apply (proj2 (handlePortfolioValue_db_errors parse_decimal (fun _ => catalog_btc_eth) ["BTC"]
                  [Some (row "BTC" 1%float)] [] false)).
  intros x [<-|[]]. discriminate.
Defined.


Lemma handlePortfolio_scan_error_witness :
  handlePortfolio (QueryRows (map Some (table db_one_row) ++ None :: []) false) =
  ListError 500 scan_failed_msg.
Proof.
  apply handlePortfolio_scan_error. intros x [<-|[]]. discriminate.
Defined.

Lemma handleAddToPortfolio_ids_ok_witness :
  ids_ok (snd (handleAddToPortfolio (Some body_btc_forged) false 500 db_one_row)).
Proof.
  apply handleAddToPortfolio_ids_ok. split.
  - constructor; [simpl; lia|constructor].
  - constructor; [intros []|constructor].
Defined.
